(** * pcdsdevices: state aggregation and command dispatch of the EPICS
      valve classes, and the relative move of the attocube motor.

    The development follows [pcdsdevices/epics/valve.py] and
    [pcdsdevices/epics/attocube.py].  Signals are attributes of a device,
    named as in the class bodies; a device is a record holding the current
    readback of every signal and the log of the operations it issued on the
    transport. *)

From Stdlib Require Import Ascii.
From stdpp Require Import base strings list gmap.

Local Open Scope Z_scope.

(** ** Python values, exceptions and the device *)

Inductive pyval :=
| VNone
| VBool (b : bool)
| VInt (n : Z)
| VStr (s : string)
| VObj (id : nat).

#[global] Instance pyval_eq_dec : EqDecision pyval.
Proof. solve_decision. Defined.

(** What a call passes: positional values, and a dict of keyword values. *)
Record arglist := Args {
  positional : list pyval;
  keywords : gmap string pyval }.

Inductive exn :=
| InterlockError (msg : string)
| UnreachableState (target : string)
| DisconnectedError (signal : string)
| TypeError
| NameError (name : string).

(** The result slot of a move request. *)
Inductive outcome := Success | TimeoutFailure | InterlockFailure | Cancelled.

#[global] Instance outcome_eq_dec : EqDecision outcome.
Proof. solve_decision. Defined.

(** What a device does on its signals and on its move requests, oldest
    first.  [Get] and [Put] are the calls [signal.get()] and
    [signal.put(value)]. *)
Inductive event :=
| Get (signal : string)
| Put (signal : string) (value : Z)
| Began (h : nat)
| Watching (h : nat)
| Settled (h : nat) (r : outcome)
| Released (h : nat).

#[global] Instance event_eq_dec : EqDecision event.
Proof. solve_decision. Defined.

Record PendingMove := Pending {
  pm_handle : nat;
  pm_target : string;
  pm_deadline : pyval }.

(** The class of an instance decides which [open] a call of [self.open]
    reaches. *)
Inductive klass := StopperCls | GateValveCls.

Record device := Device {
  cls : klass;
  readings : gmap string Z;
  log : list event;
  pending : option PendingMove;
  results : gmap nat outcome;
  next_handle : nat }.

Definition record (e : event) (st : device) : device :=
  Device (cls st) (readings st) (log st ++ [e]) (pending st) (results st)
    (next_handle st).

(** The log entries of a sequence of writes. *)
Definition issue (ws : list (string * Z)) : list event :=
  (λ w, Put w.1 w.2) <$> ws.

(** The signal writes of a log. *)
Definition writes (l : list event) : list (string * Z) :=
  omap (λ e, match e with Put s v => Some (s, v) | _ => None end) l.

(** ** Calls that may raise *)

Inductive result (A : Type) :=
| Return (a : A)
| Raise (e : exn).

Arguments Return {A} a.
Arguments Raise {A} e.

Definition M (S A : Type) : Type := S → result A * S.

Definition ret {S A} (a : A) : M S A := λ st, (Return a, st).

Definition raise {S A} (e : exn) : M S A := λ st, (Raise e, st).

Definition bind {S A B} (c : M S A) (k : A → M S B) : M S B := λ st,
  match c st with
  | (Return a, st') => k a st'
  | (Raise e, st') => (Raise e, st')
  end.

Notation "'let!' x ':=' c 'in' k" := (bind c (λ x, k))
  (at level 10, x pattern, c at level 100, k at level 200).

(** [signal.get()]: the current readback; a signal without one cannot be
    read. *)
Definition get (signal : string) : M device Z := λ st,
  match readings st !! signal with
  | Some v => (Return v, record (Get signal) st)
  | None => (Raise (DisconnectedError signal), record (Get signal) st)
  end.

(** [signal.put(value)]: the request is handed to the transport, nothing is
    read back and nothing is awaited. *)
Definition put (signal : string) (value : Z) : M device unit := λ st,
  (Return tt, record (Put signal value) st).

(** Python's [bool] on the integer a signal reads. *)
Definition truthy (v : Z) : bool := negb (v =? 0).

(** Binding of a method call [obj.f(...)] to the parameters
    [(self, wait=False, timeout=None)]; [var_kw] says whether the signature
    ends in [**kwargs], which then receives the other keywords.  The
    instance is bound to [self] by the call itself, so a keyword named
    [self] is a second value for that parameter and the call fails before
    the body runs, with or without [**kwargs]. *)
Definition bind_wait_timeout (var_kw : bool) (a : arglist)
    : result (pyval * pyval * gmap string pyval) :=
  let kw := keywords a in
  let rest := delete "wait" (delete "timeout" kw) in
  if bool_decide (is_Some (kw !! "self")) then Raise TypeError
  else if negb var_kw && negb (bool_decide (rest = ∅)) then Raise TypeError
  else
    match positional a with
    | [] =>
        Return (default (VBool false) (kw !! "wait"),
                default VNone (kw !! "timeout"), rest)
    | [w] =>
        match kw !! "wait" with
        | Some _ => Raise TypeError
        | None => Return (w, default VNone (kw !! "timeout"), rest)
        end
    | [w; t] =>
        match kw !! "wait", kw !! "timeout" with
        | None, None => Return (w, t, rest)
        | _, _ => Raise TypeError
        end
    | _ => Raise TypeError
    end.

(** The keywords of a call [f(k1=v1, ..., **kwargs)]: a key given both by
    name and in [kwargs] is a TypeError. *)
Definition call_keywords (explicit : list (string * pyval))
    (kwargs : gmap string pyval) : result (gmap string pyval) :=
  if forallb (λ kv, bool_decide (kwargs !! kv.1 = None)) explicit
  then Return (foldr (λ kv m, <[kv.1 := kv.2]> m) kwargs explicit)
  else Raise TypeError.

(** [template.format(...)], for replacement fields that are a plain name or
    index: [lookup] gives the text of a field, and no text when the field
    cannot be resolved.  A doubled brace stands for one brace; a brace
    without its partner, and a field that cannot be resolved, make the call
    fail. *)
Fixpoint format_from (lookup : string → option string) (field : option string)
    (template : string) : option string :=
  match template with
  | EmptyString =>
      match field with
      | None => Some EmptyString
      | Some _ => None
      end
  | String c rest =>
      match field with
      | None =>
          if Ascii.eqb c "{"%char then
            match rest with
            | String c' rest' =>
                if Ascii.eqb c' "{"%char
                then String c <$> format_from lookup None rest'
                else format_from lookup (Some EmptyString) rest
            | EmptyString => None
            end
          else if Ascii.eqb c "}"%char then
            match rest with
            | String c' rest' =>
                if Ascii.eqb c' "}"%char
                then String c <$> format_from lookup None rest'
                else None
            | EmptyString => None
            end
          else String c <$> format_from lookup None rest
      | Some name =>
          if Ascii.eqb c "}"%char then
            match lookup name, format_from lookup None rest with
            | Some v, Some r => Some (v +:+ r)
            | _, _ => None
            end
          else format_from lookup (Some (name +:+ String c EmptyString)) rest
      end
  end.

Definition format (lookup : string → option string) (template : string)
    : option string :=
  format_from lookup None template.

(** The index a field such as [{2}] names. *)
Definition digit (c : ascii) : option nat :=
  let n := nat_of_ascii c in
  if ((48 <=? n) && (n <=? 57))%nat then Some (n - 48)%nat else None.

Fixpoint decimal (acc : nat) (s : string) : option nat :=
  match s with
  | EmptyString => Some acc
  | String c rest =>
      match digit c with
      | Some d => decimal (10 * acc + d)%nat rest
      | None => None
      end
  end.

(** The fields of [template.format(arg0, arg1, ...)]. *)
Definition positional_fields (args : list string) (name : string)
    : option string :=
  match name with
  | EmptyString => None
  | _ =>
      match decimal 0 name with
      | Some i => args !! i
      | None => None
      end
  end.

(** [s.split(sep)] for a separator of one character. *)
Fixpoint split_on (sep : ascii) (s : string) : list string :=
  match s with
  | EmptyString => [EmptyString]
  | String c rest =>
      if Ascii.eqb c sep then EmptyString :: split_on sep rest
      else
        match split_on sep rest with
        | piece :: pieces => String c piece :: pieces
        | [] => [String c EmptyString]
        end
  end.

(** Whether a character occurs in a string. *)
Fixpoint occurs (c : ascii) (s : string) : bool :=
  match s with
  | EmptyString => false
  | String c' rest => Ascii.eqb c' c || occurs c rest
  end.

(** [s.rpartition(sep)]: what is before and what is after the last
    occurrence of the character, when there is one. *)
Fixpoint rpartition (sep : ascii) (s : string) : option (string * string) :=
  match s with
  | EmptyString => None
  | String c rest =>
      match rpartition sep rest with
      | Some (before, after) => Some (String c before, after)
      | None => if Ascii.eqb c sep then Some (EmptyString, rest) else None
      end
  end.

(** ** State resolution *)

Module State.

(** Marker of [_state_logic] tables for a reading that does not discriminate
    between states (the string ['defer'] of valve.py, lines 56-59). *)
Definition DEFER : string := "defer".

(** The fallback label. *)
Definition UNKNOWN : string := "UNKNOWN".

(** Modelled from the spec: the lookup of one State Signal Map entry
    (pcdsdevices/state.py is not among the sources).  A raw value that the
    table does not list, and a signal without a reading, fall back to
    UNKNOWN rather than fail. *)
Definition lookup_label (tbl : gmap Z string) (reading : option Z) : string :=
  match reading with
  | Some raw => default UNKNOWN (tbl !! raw)
  | None => UNKNOWN
  end.

(** Modelled from the spec: the labels of all entries of the table for the
    current values, entries whose lookup yields DEFER discarded. *)
Definition remaining (table : gmap string (gmap Z string))
    (signal_values : gmap string Z) : list string :=
  filter (λ l, l ≠ DEFER)
    ((λ e : string * gmap Z string, lookup_label e.2 (signal_values !! e.1))
       <$> map_to_list table).

(** Modelled from the spec: the State Resolver of section 4.1
    (PVStatePositioner in pcdsdevices/state.py is not among the sources).
    No label left: UNKNOWN; one distinct label left: that label; several
    distinct labels left: UNKNOWN. *)
Definition resolve (table : gmap string (gmap Z string))
    (signal_values : gmap string Z) : string :=
  match remove_dups (remaining table signal_values) with
  | [] => UNKNOWN
  | [l] => l
  | _ :: _ :: _ => UNKNOWN
  end.

(** *** Completion tracking *)

(** Modelled from the spec: the result slot of a handle is written once. *)
Definition set_once (h : nat) (r : outcome) (slots : gmap nat outcome)
    : gmap nat outcome :=
  match slots !! h with
  | Some _ => slots
  | None => <[h := r]> slots
  end.

(** Modelled from the spec: entering a terminal state (section 4.3).  The
    result slot of the active PendingMove is set, then its waiters are
    released, and the device has no PendingMove any more. *)
Definition settle (r : outcome) (st : device) : device :=
  match pending st with
  | None => st
  | Some pm =>
      Device (cls st) (readings st)
        (log st ++ [Settled (pm_handle pm) r; Released (pm_handle pm)])
        None (set_once (pm_handle pm) r (results st)) (next_handle st)
  end.

(** Modelled from the spec: a new PendingMove begins at IDLE under a fresh
    handle. *)
Definition begin (target : string) (deadline : pyval) (st : device)
    : nat * device :=
  let h := next_handle st in
  (h, Device (cls st) (readings st) (log st ++ [Began h])
        (Some (Pending h target deadline)) (results st) (S h)).

(** Modelled from the spec: [move] of the caller-facing API (section 6),
    which valve.py inherits from PVStatePositioner (pcdsdevices/state.py is
    not among the sources).  [commands_for] is the command mapping of the
    device class and [_do_move] its dispatcher.  A target without an entry
    fails at once; otherwise an active PendingMove is superseded, the new
    one begins, the dispatcher writes, and the state is watched.
    Superseding is what section 4.3 prescribes for a request made while
    another is in flight; section 9 of the specification records that the
    sources leave the choice between superseding and rejecting open, so
    nothing below is stated about the handle of the earlier request.  The
    Interlock Guard is not part of this definition: the sources evaluate it
    in [GateValve.open], and [Stopper] has no interlock signal.  [wait] only
    says whether the caller blocks on the handle afterwards. *)
Definition move (commands_for : string → option (list (string * Z)))
    (_do_move : string → M device unit) (target : string) (wait timeout : pyval)
    : M device nat := λ st,
  match commands_for target with
  | None => (Raise (UnreachableState target), st)
  | Some _ =>
      let '(h, st1) := begin target timeout (settle Cancelled st) in
      match _do_move target st1 with
      | (Return _, st2) => (Return h, record (Watching h) st2)
      | (Raise e, st2) => (Raise e, st2)
      end
  end.

End State.

(** ** valve.py *)

Module Commands.

(** Command aliases for opening and closing valves (lines 17-22). *)
Inductive t := close_valve | open_valve.

Definition value (c : t) : Z :=
  match c with
  | close_valve => 0
  | open_valve => 1
  end.

End Commands.

Module Stopper.

(** Lines 56-59. *)
Definition _state_logic : gmap string (gmap Z string) :=
  {[ "open_limit" := {[ 0 := "defer"; 1 := "OUT" ]};
     "closed_limit" := {[ 0 := "defer"; 1 := "IN" ]} ]}.

(** Lines 61-65; [state] is given by its name. *)
Definition _do_move (state : string) : M device unit :=
  if bool_decide (state = "IN")
  then put "command" (Commands.value Commands.close_valve)
  else if bool_decide (state = "OUT")
  then put "command" (Commands.value Commands.open_valve)
  else ret tt.

(** The command mapping that [_do_move] implements: the targets it has a
    branch for, each with its writes. *)
Definition commands_for (target : string) : option (list (string * Z)) :=
  if bool_decide (target = "IN")
  then Some [("command", Commands.value Commands.close_valve)]
  else if bool_decide (target = "OUT")
  then Some [("command", Commands.value Commands.open_valve)]
  else None.

Section Methods.

(** [self.move], inherited from the positioner base class. *)
Variable move : string → pyval → pyval → M device nat.

(** Lines 67-84. *)
Definition open (wait timeout : pyval) : M device nat := move "OUT" wait timeout.

(** Lines 86-103. *)
Definition close (wait timeout : pyval) : M device nat := move "IN" wait timeout.

(** A call of [Stopper.open] with an argument list. *)
Definition call_open (a : arglist) : M device nat :=
  match bind_wait_timeout false a with
  | Return (w, t, _) => open w t
  | Raise e => raise e
  end.

Definition call_close (a : arglist) : M device nat :=
  match bind_wait_timeout false a with
  | Return (w, t, _) => close w t
  | Raise e => raise e
  end.

(** The attributes [self.close] and [self.open] of the instance. *)
Variable self_close self_open : arglist → M device nat.

(** Lines 106-110. *)
Definition insert (a : arglist) : M device nat := self_close a.

(** Lines 112-116. *)
Definition remove (a : arglist) : M device nat := self_open a.

End Methods.

Section Position.

(** [self.position], the aggregate state the positioner base class keeps. *)
Variable position : M device string.

(** Lines 118-123. *)
Definition inserted : M device bool :=
  let! p := position in ret (bool_decide (p = "IN")).

(** Lines 125-130. *)
Definition removed : M device bool :=
  let! p := position in ret (bool_decide (p = "OUT")).

End Position.

End Stopper.

Module GateValve.

(** Lines 152-158. *)
Definition interlocked : M device bool :=
  let! v := get "interlock" in ret (truthy v).

Section Methods.

Variable move : string → pyval → pyval → M device nat.

(** Lines 160-185.  [super().open(wait=wait, timeout=timeout, **kwargs)]
    passes everything by keyword. *)
Definition open (wait timeout : pyval) (kwargs : gmap string pyval) : M device nat :=
  let! tripped := interlocked in
  if (tripped : bool) then raise (InterlockError "Valve is currently forced closed")
  else Stopper.call_open move
         (Args [] (<["wait" := wait]> (<["timeout" := timeout]> kwargs))).

Definition call_open (a : arglist) : M device nat :=
  match bind_wait_timeout true a with
  | Return (w, t, kwargs) => open w t kwargs
  | Raise e => raise e
  end.

End Methods.

End GateValve.

(** Attribute lookup on the instance: [GateValve] overrides [open] and
    inherits [close], [insert] and [remove]. *)
Definition self_open (move : string → pyval → pyval → M device nat) (a : arglist)
    : M device nat := λ st,
  match cls st with
  | StopperCls => Stopper.call_open move a st
  | GateValveCls => GateValve.call_open move a st
  end.

Definition self_close (move : string → pyval → pyval → M device nat) (a : arglist)
    : M device nat := Stopper.call_close move a.

Definition insert (move : string → pyval → pyval → M device nat) : arglist → M device nat :=
  Stopper.insert (self_close move).

Definition remove (move : string → pyval → pyval → M device nat) : arglist → M device nat :=
  Stopper.remove (self_open move).

(** [self.move] of both classes: the inherited [move] over the class's
    command mapping and dispatcher. *)
Definition move : string → pyval → pyval → M device nat :=
  State.move Stopper.commands_for Stopper._do_move.

Module PPSStopper.

(** What can be registered as a callback: the bound method
    [self._on_state_change], or a callable of the caller. *)
Inductive callback := _on_state_change | Caller (id : nat).

#[global] Instance callback_eq_dec : EqDecision callback.
Proof. solve_decision. Defined.

(** The instance attributes set by [__init__], the subscriptions the
    [summary] signal received ([summary.subscribe(cb, run=...)]) and the
    registrations the device class received
    ([super().subscribe(cb, event_type=..., run=...)]), oldest first. *)
Record t := Build {
  in_state : string;
  out_state : string;
  _has_subscribed : bool;
  _mps_prefix : option string;
  summary_subscriptions : list (callback * bool);
  registrations : list (callback * option string * bool) }.

(** Lines 221-235. *)
Definition __init__ (in_state out_state : string) (mps_prefix : option string)
    : t :=
  Build in_state out_state false mps_prefix [] [].

(** Lines 251-269. *)
Definition subscribe (cb : callback) (event_type : option string) (run : bool)
    (self : t) : t :=
  let self1 :=
    if negb (_has_subscribed self)
    then Build (in_state self) (out_state self) true (_mps_prefix self)
           (summary_subscriptions self ++ [(_on_state_change, false)])
           (registrations self)
    else self in
  Build (in_state self1) (out_state self1) (_has_subscribed self1)
    (_mps_prefix self1) (summary_subscriptions self1)
    (registrations self1 ++ [(cb, event_type, run)]).

(** One instance over its lifetime: construction, then calls of
    [subscribe]. *)
Definition lifetime (in_state out_state : string) (mps_prefix : option string)
    (calls : list (callback * option string * bool)) : t :=
  foldl (λ self c, subscribe c.1.1 c.1.2 c.2 self)
    (__init__ in_state out_state mps_prefix) calls.

(** How often the internal callback is installed on [summary]. *)
Definition installed (self : t) : nat :=
  length (filter (λ s : callback * bool, s.1 = _on_state_change)
            (summary_subscriptions self)).

(** Line 215. *)
Definition SUB_STATE : string := "sub_state_changed".

(** Lines 237-242; [summary] is what [self.summary.get(as_string=True)]
    returns. *)
Definition inserted (summary : string) (self : t) : bool :=
  bool_decide (summary = in_state self).

(** Lines 244-249. *)
Definition removed (summary : string) (self : t) : bool :=
  bool_decide (summary = out_state self).

(** Lines 271-277: the keywords [self._run_subs] is called with, [this]
    being the instance.  The two [pop]s come first. *)
Definition run_on_state_change (this : pyval) (kwargs : gmap string pyval)
    : result (gmap string pyval) :=
  let kwargs := delete "sub_type" kwargs in
  let kwargs := delete "obj" kwargs in
  call_keywords [("sub_type", VStr SUB_STATE); ("obj", this)] kwargs.

(** An update of the summary signal: the signal calls every callback that
    was subscribed to it, with the keywords of the update.  The result lists
    the calls of [self._run_subs] this leads to. *)
Definition summary_changed (this : pyval) (kwargs : gmap string pyval)
    (self : t) : list (result (gmap string pyval)) :=
  omap (λ s : callback * bool,
          match s.1 with
          | _on_state_change => Some (run_on_state_change this kwargs)
          | Caller _ => None
          end)
       (summary_subscriptions self).

End PPSStopper.

(** ** attocube.py *)

Module EccBase.

(** What a name of the function body can stand for. *)
Inductive pyobj :=
| Val (v : pyval)
| Tuple (l : list pyval)
| Dict (d : gmap string pyval)
| Global (name : string).

(** The names bound at the top level of attocube.py: the module attributes
    every module has, the imports of lines 9-22, [logger] and the classes. *)
Definition module_names : list string :=
  ["__name__"; "__doc__"; "__package__"; "__loader__"; "__spec__";
   "__file__"; "__cached__"; "__builtins__";
   "logging"; "np"; "Device"; "Component"; "EpicsMotor"; "EpicsSignal";
   "EpicsSignalRO"; "logger"; "EccController"; "EccBase"; "TranslationEcc";
   "GoniometerEcc"; "DiodeEcc"].

(** Binding of a call to the parameters [(rel_position, *args, **kwargs)] of
    line 56: the local names of the body. *)
Definition bind_moverel (a : arglist) : result (gmap string pyobj) :=
  match positional a, keywords a !! "rel_position" with
  | p :: rest, None =>
      Return {[ "rel_position" := Val p; "args" := Tuple rest;
                "kwargs" := Dict (keywords a) ]}
  | p :: rest, Some _ => Raise TypeError
  | [], Some v =>
      Return {[ "rel_position" := Val v; "args" := Tuple [];
                "kwargs" := Dict (delete "rel_position" (keywords a)) ]}
  | [], None => Raise TypeError
  end.

Section Body.

(** The state of the motor and of its signals. *)
Variable motor : Type.

(** The names of Python's builtins module. *)
Variable builtins : list string.

(** Attribute access, addition and the call of a bound method. *)
Variable getattr : pyobj → string → M motor pyobj.
Variable add : pyobj → pyobj → M motor pyobj.
Variable call : pyobj → pyobj → pyobj → pyobj → M motor nat.

(** A name is looked up in the locals, then in the module, then in the
    builtins. *)
Definition load_name (locals : gmap string pyobj) (name : string)
    : M motor pyobj :=
  match locals !! name with
  | Some v => ret v
  | None =>
      if bool_decide (name ∈ module_names ++ builtins) then ret (Global name)
      else raise (NameError name)
  end.

(** Line 91, in evaluation order: the callee [self.move], the argument
    [rel_position + self.position], then [*args] and [**kwargs]. *)
Definition moverel_body (locals : gmap string pyobj) : M motor nat :=
  let! self := load_name locals "self" in
  let! callee := getattr self "move" in
  let! rel_position := load_name locals "rel_position" in
  let! self' := load_name locals "self" in
  let! position := getattr self' "position" in
  let! target := add rel_position position in
  let! args := load_name locals "args" in
  let! kwargs := load_name locals "kwargs" in
  call callee target args kwargs.

(** Lines 56-91. *)
Definition moverel (a : arglist) : M motor nat :=
  match bind_moverel a with
  | Return locals => moverel_body locals
  | Raise e => raise e
  end.

End Body.

End EccBase.

Module EccController.

(** Lines 36-42 of attocube.py; the arguments are [str] of the values of
    the three firmware signals. *)
Definition firmware (day month year : string) : option string :=
  format (positional_fields [day; month; year]) "{0}/{1}/{2}".

End EccController.

(** ** evr.py *)

Module EvrChannel.

(** A component is declared with the suffix of its PV and, for some, the
    suffix of a separate PV to write to.  [Cmp] appends to the prefix of the
    device, [FCmp] formats against the instance. *)
Inductive component :=
| Cmp (suffix : string) (write_pv : option string)
| FCmp (suffix : string) (write_pv : option string).

(** Line 19. *)
Definition _trig_base : string := "{self.prefix}:TRIG{self.ch}:".

(** Lines 12-34. *)
Definition components : list (string * component) :=
  [("link", Cmp ":LINK" None);
   ("fiducial_rate", Cmp ":FIDUCIALRATE" None);
   ("pattern_state", Cmp ":PATTERNSTATE" None);
   ("status", Cmp ":STATUS" None);
   ("fiducial", Cmp ":Fiducial" None);
   ("reference_time", Cmp ":TREF" None);
   ("event_code",
    FCmp (_trig_base +:+ "EC_RBV") (Some (_trig_base +:+ "TEC")));
   ("desc", FCmp (_trig_base +:+ "TCTL.DESC") None);
   ("event_code_name", FCmp (_trig_base +:+ "EC_NAME") None);
   ("enable", FCmp (_trig_base +:+ "TCTL") None);
   ("acquire", FCmp "{self.prefix}:CTRL.IP{self.ch}E" None);
   ("polarity", FCmp (_trig_base +:+ "TPOL") None);
   ("width",
    FCmp (_trig_base +:+ "BW_TWIDCALC") (Some (_trig_base +:+ "TWID")));
   ("delay_ns",
    FCmp (_trig_base +:+ "BW_TDES") (Some (_trig_base +:+ "TDES")));
   ("delay_ticks",
    FCmp (_trig_base +:+ "BW_TDLY") (Some "{self.prefix}:CTRL.DG{self.ch}D"));
   ("count", FCmp (_trig_base +:+ "CNT") None);
   ("rate", FCmp (_trig_base +:+ "RATE") None)].

Record t := Build {
  prefix : string;
  ch : string }.

(** Lines 36-41; [channel] is given by its [str]. *)
Definition __init__ (prefix channel : string) : t := Build prefix channel.

(** The fields the templates of this class refer to. *)
Definition fields (self : t) (name : string) : option string :=
  if String.eqb name "self.prefix" then Some (prefix self)
  else if String.eqb name "self.ch" then Some (ch self)
  else None.

(** The PV a suffix of a component stands for. *)
Definition pv (self : t) (formatted : bool) (suffix : string) : option string :=
  if formatted then format (fields self) suffix
  else Some (prefix self +:+ suffix).

(** The PVs of one component: the one it reads, then the one it writes when
    that is a separate one. *)
Definition pvs (self : t) (c : component) : option (list string) :=
  let '(formatted, suffix, write_pv) :=
    match c with
    | Cmp suffix w => (false, suffix, w)
    | FCmp suffix w => (true, suffix, w)
    end in
  match pv self formatted suffix, write_pv with
  | Some r, None => Some [r]
  | Some r, Some w =>
      match pv self formatted w with
      | Some w' => Some [r; w']
      | None => None
      end
  | None, _ => None
  end.

Definition is_formatted (c : component) : bool :=
  match c with
  | Cmp _ _ => false
  | FCmp _ _ => true
  end.

(** The PVs of the components that [keep] selects, in the order of the
    class body. *)
Definition pvs_of (keep : component → bool) (self : t) : option (list string) :=
  mjoin <$> mapM (pvs self) (filter (λ c, keep c = true) (snd <$> components)).

Definition all_pvs : t → option (list string) := pvs_of (λ _, true).

End EvrChannel.

(** ** Devices and calls the properties are tried on *)

(** A run of calls of the dispatcher of [Stopper], one per state. *)
Definition dispatch_all (states : list string) : M device unit :=
  foldr (λ state rest, let! _ := Stopper._do_move state in rest) (ret tt)
    states.

(** The readings of the two limit switches of a stopper. *)
Definition limits (open_limit closed_limit : Z) : gmap string Z :=
  {[ "open_limit" := open_limit; "closed_limit" := closed_limit ]}.

(** A closed gate valve with no move in flight, whose interlock signal reads
    [interlock]. *)
Definition gate_valve (interlock : Z) : device :=
  Device GateValveCls (<["interlock" := interlock]> (limits 0 1)) [] None ∅
    0%nat.

(** A closed stopper with no move in flight. *)
Definition stopper : device := Device StopperCls (limits 0 1) [] None ∅ 0%nat.

(** A call without arguments, as in [valve.close()]. *)
Definition no_arguments : arglist := Args [] ∅.

(** Python's built-in functions, the names a module finds in the builtins
    when they are bound nowhere else. *)
Definition builtin_functions : list string :=
  ["abs"; "aiter"; "all"; "anext"; "any"; "ascii"; "bin"; "bool";
   "breakpoint"; "bytearray"; "bytes"; "callable"; "chr"; "classmethod";
   "compile"; "complex"; "delattr"; "dict"; "dir"; "divmod"; "enumerate";
   "eval"; "exec"; "filter"; "float"; "format"; "frozenset"; "getattr";
   "globals"; "hasattr"; "hash"; "help"; "hex"; "id"; "input"; "int";
   "isinstance"; "issubclass"; "iter"; "len"; "list"; "locals"; "map"; "max";
   "memoryview"; "min"; "next"; "object"; "oct"; "open"; "ord"; "pow";
   "print"; "property"; "range"; "repr"; "reversed"; "round"; "set";
   "setattr"; "slice"; "sorted"; "staticmethod"; "str"; "sum"; "super";
   "tuple"; "type"; "vars"; "zip"; "__import__"].

(** * Properties *)

(** ** The State Resolver *)

Section Resolver.

Context (table : gmap string (gmap Z string)) (values : gmap string Z).

Lemma elem_of_remaining (l : string) :
  l ∈ State.remaining table values ↔
  l ≠ State.DEFER ∧
  ∃ s tbl, table !! s = Some tbl ∧ State.lookup_label tbl (values !! s) = l.
Proof.
  unfold State.remaining.
  rewrite list_elem_of_filter, list_elem_of_fmap.
  split.
  - intros [Hl [[s tbl] [-> Hin]]].
    apply elem_of_map_to_list in Hin. eauto.
  - intros [Hl (s & tbl & Hs & <-)].
    split; [done|]. exists (s, tbl). split; [done|].
    by apply elem_of_map_to_list.
Qed.

End Resolver.

Lemma remove_dups_one (l : list string) (x : string) :
  x ∈ l → (∀ y, y ∈ l → y = x) → remove_dups l = [x].
Proof.
  intros Hx Hall.
  pose proof (NoDup_remove_dups l) as Hnd.
  assert (Hin : ∀ y, y ∈ remove_dups l → y = x)
    by (intros y Hy; apply Hall; by apply elem_of_remove_dups).
  apply elem_of_remove_dups in Hx.
  destruct (remove_dups l) as [|a [|b r]].
  - by apply elem_of_nil in Hx.
  - f_equal. apply Hin. left.
  - exfalso. inversion Hnd as [|? ? Hna _]; subst.
    apply Hna. rewrite (Hin a), (Hin b); [left | right; left | left].
Qed.

Lemma remove_dups_two (l : list string) (x y : string) :
  x ∈ l → y ∈ l → x ≠ y → ∃ a b r, remove_dups l = a :: b :: r.
Proof.
  intros Hx Hy Hne.
  apply elem_of_remove_dups in Hx. apply elem_of_remove_dups in Hy.
  destruct (remove_dups l) as [|a [|b r]]; [| | eauto].
  - by apply elem_of_nil in Hx.
  - apply list_elem_of_singleton in Hx. apply list_elem_of_singleton in Hy.
    congruence.
Qed.

(** C1.  When the lookups of the contributing signals leave exactly one
    distinct label that is not DEFER, the resolver returns that label.  For
    the table of [Stopper], an asserted open limit with a silent closed limit
    resolves to OUT, and the converse to IN. *)
Theorem resolve_single_label :
  (∀ (table : gmap string (gmap Z string)) (values : gmap string Z)
     (l : string),
     l ≠ State.DEFER →
     (∃ s tbl, table !! s = Some tbl ∧
               State.lookup_label tbl (values !! s) = l) →
     (∀ s tbl, table !! s = Some tbl →
               State.lookup_label tbl (values !! s) = State.DEFER ∨
               State.lookup_label tbl (values !! s) = l) →
     State.resolve table values = l) ∧
  State.resolve Stopper._state_logic (limits 1 0) = "OUT" ∧
  State.resolve Stopper._state_logic (limits 0 1) = "IN".
Proof.
  split; [|split; vm_compute; reflexivity].
  intros table values l Hl Hex Hall.
  unfold State.resolve.
  rewrite (remove_dups_one _ l); [done| |].
  - apply elem_of_remaining. by split.
  - intros y [Hy (s & tbl & Hs & Hlab)]%elem_of_remaining.
    destruct (Hall s tbl Hs) as [Hd|Hd]; congruence.
Qed.

Lemma stopper_table_entries (s : string) (tbl : gmap Z string) :
  Stopper._state_logic !! s = Some tbl →
  (s = "open_limit" ∧ tbl = {[ 0 := "defer"; 1 := "OUT" ]}) ∨
  (s = "closed_limit" ∧ tbl = {[ 0 := "defer"; 1 := "IN" ]}).
Proof.
  unfold Stopper._state_logic. intros H.
  apply lookup_insert_Some in H as [[<- <-]|[_ H]]; [by left|].
  apply lookup_singleton_Some in H as [<- <-]. by right.
Qed.

Lemma resolve_single_label_witness :
  State.resolve Stopper._state_logic (limits 1 0) = "OUT".
Proof.
  apply (proj1 resolve_single_label).
  - discriminate.
  - exists "open_limit", {[ 0 := "defer"; 1 := "OUT" ]}.
    split; vm_compute; reflexivity.
  - intros s tbl [[-> ->]|[-> ->]]%stopper_table_entries.
    + right. vm_compute. reflexivity.
    + left. vm_compute. reflexivity.
Defined.

(** C2.  When the lookups leave two distinct labels other than UNKNOWN, or
    when every contributing signal yields DEFER, the resolver returns
    UNKNOWN, and so none of the conflicting labels.  This covers both limits
    of a [Stopper] asserted, both silent, and the two-signal scenario of the
    specification. *)
Theorem resolve_conflict_or_defer_unknown :
  (∀ (table : gmap string (gmap Z string)) (values : gmap string Z)
     (l1 l2 : string),
     (∃ s tbl, table !! s = Some tbl ∧
               State.lookup_label tbl (values !! s) = l1) →
     (∃ s tbl, table !! s = Some tbl ∧
               State.lookup_label tbl (values !! s) = l2) →
     l1 ≠ State.DEFER → l2 ≠ State.DEFER →
     l1 ≠ l2 → l1 ≠ State.UNKNOWN → l2 ≠ State.UNKNOWN →
     State.resolve table values = State.UNKNOWN ∧
     State.resolve table values ≠ l1 ∧ State.resolve table values ≠ l2) ∧
  (∀ (table : gmap string (gmap Z string)) (values : gmap string Z),
     (∀ s tbl, table !! s = Some tbl →
               State.lookup_label tbl (values !! s) = State.DEFER) →
     State.resolve table values = State.UNKNOWN) ∧
  State.resolve Stopper._state_logic (limits 1 1) = "UNKNOWN" ∧
  State.resolve Stopper._state_logic (limits 0 0) = "UNKNOWN" ∧
  (let scenario : gmap string (gmap Z string) :=
     {[ "A" := {[ 0 := "defer"; 1 := "IN" ]};
        "B" := {[ 0 := "defer"; 1 := "OUT" ]} ]} in
   State.resolve scenario {[ "A" := 1; "B" := 0 ]} = "IN" ∧
   State.resolve scenario {[ "A" := 1; "B" := 1 ]} = "UNKNOWN" ∧
   State.resolve scenario {[ "A" := 0; "B" := 0 ]} = "UNKNOWN").
Proof.
  split; [|split; [|repeat split; vm_compute; reflexivity]].
  - intros table values l1 l2 H1 H2 Hd1 Hd2 Hne Hu1 Hu2.
    assert (H1' : l1 ∈ State.remaining table values)
      by (by apply elem_of_remaining).
    assert (H2' : l2 ∈ State.remaining table values)
      by (by apply elem_of_remaining).
    assert (Hr : State.resolve table values = State.UNKNOWN).
    { unfold State.resolve.
      destruct (remove_dups_two _ _ _ H1' H2' Hne) as (a & b & r & ->).
      done. }
    rewrite Hr. by repeat split.
  - intros table values Hall.
    unfold State.resolve.
    destruct (remove_dups (State.remaining table values)) as [|a r] eqn:E;
      [done|].
    assert (Ha : a ∈ State.remaining table values)
      by (apply elem_of_remove_dups; rewrite E; left).
    apply elem_of_remaining in Ha as [Hd (s & tbl & Hs & Hlab)].
    rewrite (Hall s tbl Hs) in Hlab. congruence.
Qed.

Lemma resolve_conflict_or_defer_unknown_witness :
  (State.resolve Stopper._state_logic (limits 1 1) = State.UNKNOWN ∧
   State.resolve Stopper._state_logic (limits 1 1) ≠ "OUT" ∧
   State.resolve Stopper._state_logic (limits 1 1) ≠ "IN") ∧
  State.resolve Stopper._state_logic (limits 0 0) = State.UNKNOWN.
Proof.
  split.
  - apply (proj1 resolve_conflict_or_defer_unknown).
    + exists "open_limit", {[ 0 := "defer"; 1 := "OUT" ]}.
      split; vm_compute; reflexivity.
    + exists "closed_limit", {[ 0 := "defer"; 1 := "IN" ]}.
      split; vm_compute; reflexivity.
    + discriminate.
    + discriminate.
    + discriminate.
    + discriminate.
    + discriminate.
  - apply (proj1 (proj2 resolve_conflict_or_defer_unknown)).
    intros s tbl [[-> ->]|[-> ->]]%stopper_table_entries;
      vm_compute; reflexivity.
Defined.

(** ** The dispatcher and the interlock *)

Lemma writes_app (l k : list event) : writes (l ++ k) = writes l ++ writes k.
Proof. unfold writes. apply omap_app. Qed.

Lemma do_move_commands (state : string) (st : device) :
  Stopper._do_move state st =
  (Return tt,
   Device (cls st) (readings st)
     (log st ++ issue (default [] (Stopper.commands_for state)))
     (pending st) (results st) (next_handle st)).
Proof.
  unfold Stopper._do_move, Stopper.commands_for, put, ret, record.
  repeat case_bool_decide; [reflexivity..|].
  cbn. rewrite app_nil_r. by destruct st.
Qed.

Lemma writes_issue (ws : list (string * Z)) : writes (issue ws) = ws.
Proof.
  unfold writes, issue. induction ws as [|[s v] ws IH]; [done|].
  cbn. by rewrite IH.
Qed.

Lemma issue_only_puts (ws : list (string * Z)) (e : event) :
  e ∈ issue ws → ∃ s v, e = Put s v.
Proof.
  unfold issue. intros [[s v] [-> _]]%list_elem_of_fmap. eauto.
Qed.

Lemma settle_log (r : outcome) (st : device) :
  ∃ pre, log (State.settle r st) = log st ++ pre ∧ writes pre = [] ∧
         Get "interlock" ∉ pre.
Proof.
  unfold State.settle. destruct (pending st).
  - eexists; split; [reflexivity|]. split; [done|].
    intros H. repeat (apply elem_of_cons in H as [H|H]; [done|]).
    by apply elem_of_nil in H.
  - exists []. rewrite app_nil_r. split; [done|]. split; [done|].
    apply not_elem_of_nil.
Qed.

Lemma move_log (target : string) (wait timeout : pyval) (st : device) :
  ∃ suffix, log (move target wait timeout st).2 = log st ++ suffix ∧
            writes suffix = default [] (Stopper.commands_for target) ∧
            Get "interlock" ∉ suffix.
Proof.
  unfold move, State.move.
  destruct (Stopper.commands_for target) as [ws|] eqn:E.
  - unfold State.begin. rewrite do_move_commands, E.
    cbn [snd log record default].
    destruct (settle_log Cancelled st) as (pre & -> & Hpre & Hg).
    set (h := next_handle (State.settle Cancelled st)).
    exists (pre ++ [Began h] ++ issue ws ++ [Watching h]).
    split; [by rewrite <- !app_assoc|]. split.
    + rewrite !writes_app, Hpre, writes_issue. cbn. by rewrite app_nil_r.
    + rewrite !elem_of_app, !list_elem_of_singleton.
      intros [?|[?|[Hin|?]]]; [done|done| |done].
      by apply issue_only_puts in Hin as (s & v & ?).
  - exists []. cbn. rewrite app_nil_r. split; [done|]. split; [done|].
    apply not_elem_of_nil.
Qed.

Lemma truthy_nonzero (v : Z) : v ≠ 0 → truthy v = true.
Proof. intros H. unfold truthy. by apply negb_true_iff, Z.eqb_neq. Qed.

(** C3, as the code has it.  When the interlock signal of a gate valve reads
    a truthy value at the time [open] is called, [open] raises
    [InterlockError] to its caller: it has read the interlock, it writes to
    no signal, no move request begins and no handle is returned.  This holds
    whatever the inherited [move] does. *)
Theorem open_interlocked_raises
    (mv : string → pyval → pyval → M device nat) (wait timeout : pyval)
    (kwargs : gmap string pyval) (st : device) (v : Z) :
  readings st !! "interlock" = Some v → v ≠ 0 →
  GateValve.open mv wait timeout kwargs st =
    (Raise (InterlockError "Valve is currently forced closed"),
     record (Get "interlock") st) ∧
  writes (log (record (Get "interlock") st)) = writes (log st) ∧
  pending (record (Get "interlock") st) = pending st ∧
  next_handle (record (Get "interlock") st) = next_handle st.
Proof.
  intros Hv Hnz. split; [|split; [|done]].
  - unfold GateValve.open, GateValve.interlocked, bind, get, ret, raise.
    by rewrite Hv, (truthy_nonzero v Hnz).
  - cbn. rewrite writes_app. cbn. by rewrite app_nil_r.
Qed.

Lemma open_interlocked_raises_witness :
  GateValve.open move (VBool false) VNone ∅ (gate_valve 1) =
    (Raise (InterlockError "Valve is currently forced closed"),
     record (Get "interlock") (gate_valve 1)) ∧
  writes (log (record (Get "interlock") (gate_valve 1))) =
    writes (log (gate_valve 1)) ∧
  pending (record (Get "interlock") (gate_valve 1)) = pending (gate_valve 1) ∧
  next_handle (record (Get "interlock") (gate_valve 1)) =
    next_handle (gate_valve 1).
Proof.
  apply (open_interlocked_raises move (VBool false) VNone ∅ (gate_valve 1) 1).
  - vm_compute. reflexivity.
  - lia.
Defined.

(** C3, as the specification words it, fails: on a gate valve whose
    interlock reads 1, [open] returns no completion handle at all, so none
    that resolves with the interlock failure. *)
Lemma open_interlocked_returns_no_handle :
  ¬ ∃ (h : nat) (st' : device),
      GateValve.open move (VBool false) VNone ∅ (gate_valve 1) =
        (Return h, st') ∧
      results st' !! h = Some InterlockFailure.
Proof.
  intros (h & st' & Hopen & _).
  vm_compute in Hopen. discriminate.
Qed.

Lemma open_log (wait timeout : pyval) (kwargs : gmap string pyval)
    (st : device) :
  ∃ rest, log (GateValve.open move wait timeout kwargs st).2 =
            log st ++ (Get "interlock" :: rest) ∧
          (Get "interlock" ∉ rest) ∧
          (∀ v, readings st !! "interlock" = Some v → v ≠ 0 → rest = []).
Proof.
  unfold GateValve.open, GateValve.interlocked, bind, get, ret, raise.
  destruct (readings st !! "interlock") as [v|] eqn:Hv.
  - destruct (truthy v) eqn:Ht.
    + exists []. split; [done|]. split; [apply not_elem_of_nil|done].
    + unfold Stopper.call_open.
      destruct (bind_wait_timeout false _) as [[[w t] r]|e].
      * unfold Stopper.open.
        destruct (move_log "OUT" w t (record (Get "interlock") st))
          as (sfx & Hlog & _ & Hg).
        exists sfx. rewrite Hlog. cbn. rewrite <- app_assoc.
        split; [done|]. split; [done|].
        intros v' [= <-] Hnz. by rewrite (truthy_nonzero v Hnz) in Ht.
      * exists []. split; [done|]. split; [apply not_elem_of_nil|].
        done.
  - exists []. split; [done|]. split; [apply not_elem_of_nil|done].
Qed.

(** C4, as the code has it.  A request to open a gate valve through [open]
    reads the interlock before anything else, so before any command is
    issued, and reads it once; when the interlock is tripped nothing follows
    the read, so no command signal is written.  A request to close goes to
    [move] at once: on a valve without a move in flight its first log entry
    is the start of the move, the interlock is never read, and the close
    command 0 is written whatever the interlock reads. *)
Theorem open_checks_interlock_first :
  (∀ (wait timeout : pyval) (kwargs : gmap string pyval) (st : device),
     ∃ rest, log (GateValve.open move wait timeout kwargs st).2 =
               log st ++ (Get "interlock" :: rest) ∧
             (Get "interlock" ∉ rest) ∧
             (∀ v, readings st !! "interlock" = Some v → v ≠ 0 →
                   rest = [] ∧
                   writes (log (GateValve.open move wait timeout kwargs st).2)
                   = writes (log st))) ∧
  (∀ (wait timeout : pyval) (st : device),
     ∃ suffix, log (Stopper.close move wait timeout st).2 = log st ++ suffix ∧
               (Get "interlock" ∉ suffix) ∧
               writes suffix = [("command", 0)]).
Proof.
  split.
  - intros wait timeout kwargs st.
    destruct (open_log wait timeout kwargs st) as (rest & Hlog & Hg & Ht).
    exists rest. split; [done|]. split; [done|].
    intros v Hv Hnz. rewrite Hlog, (Ht v Hv Hnz). split; [done|].
    rewrite writes_app. cbn. by rewrite app_nil_r.
  - intros wait timeout st. unfold Stopper.close.
    destruct (move_log "IN" wait timeout st) as (sfx & Hlog & Hw & Hg).
    exists sfx. by repeat split.
Qed.

Lemma open_checks_interlock_first_witness :
  ∃ rest, log (GateValve.open move (VBool false) VNone ∅ (gate_valve 1)).2 =
            log (gate_valve 1) ++ (Get "interlock" :: rest) ∧
          rest = [] ∧
          writes (log (GateValve.open move (VBool false) VNone ∅
                         (gate_valve 1)).2) = writes (log (gate_valve 1)).
Proof.
  destruct (proj1 open_checks_interlock_first (VBool false) VNone ∅
              (gate_valve 1)) as (rest & Hlog & _ & Htripped).
  exists rest. split; [exact Hlog|].
  apply (Htripped 1); [vm_compute; reflexivity | lia].
Defined.

(** C4, as the specification words it, fails: it is not so that every
    request on a gate valve whose interlock is tripped leaves the command
    signal unwritten.  [close] on a valve whose interlock reads 1 writes. *)
Lemma close_writes_while_interlocked :
  ¬ ∀ (a : arglist) (st : device) (v : Z),
      cls st = GateValveCls →
      readings st !! "interlock" = Some v → v ≠ 0 →
      writes (log (self_close move a st).2) = writes (log st).
Proof.
  intros H.
  specialize (H no_arguments (gate_valve 1) 1 eq_refl).
  assert (Hw : writes (log (self_close move no_arguments (gate_valve 1)).2)
               = [("command", 0)]) by (vm_compute; reflexivity).
  rewrite Hw in H.
  specialize (H ltac:(vm_compute; reflexivity) ltac:(lia)).
  discriminate.
Qed.

(** C5.  A target other than IN and OUT has no entry in the command mapping
    of the two valve classes, and no branch in their dispatcher, which then
    writes nothing.  The request fails at once with UnreachableState and
    leaves the device as it was: nothing is written and no PendingMove is
    created. *)
Theorem move_unreachable_target (target : string) (wait timeout : pyval)
    (st : device) :
  target ≠ "IN" → target ≠ "OUT" →
  Stopper.commands_for target = None ∧
  Stopper._do_move target st = (Return tt, st) ∧
  move target wait timeout st = (Raise (UnreachableState target), st).
Proof.
  intros Hin Hout.
  assert (Hc : Stopper.commands_for target = None).
  { unfold Stopper.commands_for. by repeat case_bool_decide. }
  split; [done|]. split.
  - unfold Stopper._do_move. by repeat case_bool_decide.
  - unfold move, State.move. by rewrite Hc.
Qed.

Lemma move_unreachable_target_witness :
  Stopper.commands_for "UNKNOWN" = None ∧
  Stopper._do_move "UNKNOWN" stopper = (Return tt, stopper) ∧
  move "UNKNOWN" (VBool false) VNone stopper =
    (Raise (UnreachableState "UNKNOWN"), stopper).
Proof.
  apply (move_unreachable_target "UNKNOWN" (VBool false) VNone stopper);
    discriminate.
Defined.

(** C6.  The dispatcher of [Stopper], which [GateValve] inherits, turns the
    target IN into one log entry, the write of the close command 0 to the
    command signal, and the target OUT into the write of the open command 1.
    It returns at once, with nothing read and nothing else written: the
    device afterwards differs by that one entry only. *)
Theorem do_move_writes_one_command (st : device) :
  Commands.value Commands.close_valve = 0 ∧
  Commands.value Commands.open_valve = 1 ∧
  Stopper._do_move "IN" st = (Return tt, record (Put "command" 0) st) ∧
  Stopper._do_move "OUT" st = (Return tt, record (Put "command" 1) st) ∧
  writes (log (record (Put "command" 0) st)) =
    writes (log st) ++ [("command", 0)] ∧
  writes (log (record (Put "command" 1) st)) =
    writes (log st) ++ [("command", 1)].
Proof.
  repeat split; try reflexivity; cbn; by rewrite writes_app.
Qed.

(** C8.  On every instance and for every argument list, [insert] is the
    instance's [close] and [remove] is the instance's [open].  [close] is
    [Stopper.close] for both classes; [open] is [Stopper.open] for a stopper
    and the overriding [GateValve.open] for a gate valve.  When the
    arguments bind to [wait] and [timeout], [insert] is the move to IN, and
    on a stopper [remove] is the move to OUT. *)
Theorem lightpath_aliases (mv : string → pyval → pyval → M device nat)
    (a : arglist) (st : device) :
  insert mv a st = self_close mv a st ∧
  remove mv a st = self_open mv a st ∧
  insert mv a st = Stopper.call_close mv a st ∧
  (cls st = StopperCls → remove mv a st = Stopper.call_open mv a st) ∧
  (cls st = GateValveCls → remove mv a st = GateValve.call_open mv a st) ∧
  (∀ w t rest, bind_wait_timeout false a = Return (w, t, rest) →
     insert mv a st = Stopper.close mv w t st ∧
     Stopper.close mv w t st = mv "IN" w t st ∧
     (cls st = StopperCls →
        remove mv a st = Stopper.open mv w t st ∧
        Stopper.open mv w t st = mv "OUT" w t st)).
Proof.
  unfold insert, remove, Stopper.insert, Stopper.remove, self_close, self_open.
  split; [done|]. split; [done|]. split; [done|].
  split; [by intros ->|]. split; [by intros ->|].
  intros w t rest Hbind. split; [|split; [done|]].
  - unfold Stopper.call_close. by rewrite Hbind.
  - intros ->. split; [|done].
    unfold Stopper.call_open. by rewrite Hbind.
Qed.

Lemma lightpath_aliases_witness :
  insert move (Args [VBool true] {[ "timeout" := VInt 5 ]}) stopper =
    Stopper.close move (VBool true) (VInt 5) stopper ∧
  remove move (Args [VBool true] {[ "timeout" := VInt 5 ]}) stopper =
    Stopper.open move (VBool true) (VInt 5) stopper.
Proof.
  pose proof (lightpath_aliases move
    (Args [VBool true] {[ "timeout" := VInt 5 ]}) stopper) as H.
  destruct H as (_ & _ & _ & _ & _ & H).
  destruct (H (VBool true) (VInt 5) ∅ ltac:(vm_compute; reflexivity))
    as (Hi & _ & Hr).
  split; [exact Hi|]. exact (proj1 (Hr eq_refl)).
Defined.

(** ** Subscriptions of the PPS stopper *)

Lemma subscribe_installed (cb : PPSStopper.callback)
    (event_type : option string) (run : bool) (self : PPSStopper.t) :
  PPSStopper.installed self =
    (if PPSStopper._has_subscribed self then 1 else 0)%nat →
  PPSStopper._has_subscribed (PPSStopper.subscribe cb event_type run self)
    = true ∧
  PPSStopper.installed (PPSStopper.subscribe cb event_type run self) = 1%nat ∧
  PPSStopper.registrations (PPSStopper.subscribe cb event_type run self) =
    PPSStopper.registrations self ++ [(cb, event_type, run)].
Proof.
  unfold PPSStopper.subscribe, PPSStopper.installed.
  destruct (PPSStopper._has_subscribed self) eqn:E; cbn; intros Hin.
  - by rewrite E.
  - split; [done|]. split; [|done].
    rewrite filter_app, length_app, Hin. reflexivity.
Qed.

Lemma lifetime_snoc (i o : string) (m : option string)
    (calls : list (PPSStopper.callback * option string * bool))
    (c : PPSStopper.callback * option string * bool) :
  PPSStopper.lifetime i o m (calls ++ [c]) =
  PPSStopper.subscribe c.1.1 c.1.2 c.2 (PPSStopper.lifetime i o m calls).
Proof. unfold PPSStopper.lifetime. by rewrite foldl_snoc. Qed.

(** C9.  Over the lifetime of one instance, from its construction through
    any number of calls of [subscribe], the internal callback
    [_on_state_change] is installed on the summary signal at most once: not
    at all before the first call and exactly once from then on, which is
    what the flag [_has_subscribed] records.  Every call registers the
    caller's callback with the device, in the order of the calls. *)
Theorem subscribe_installs_once (in_state out_state : string)
    (mps_prefix : option string)
    (calls : list (PPSStopper.callback * option string * bool)) :
  let self := PPSStopper.lifetime in_state out_state mps_prefix calls in
  (PPSStopper.installed self ≤ 1)%nat ∧
  PPSStopper.installed self = (if decide (calls = []) then 0 else 1)%nat ∧
  PPSStopper._has_subscribed self = bool_decide (calls ≠ []) ∧
  PPSStopper.registrations self = calls.
Proof.
  cbn zeta.
  induction calls as [|c calls IH] using rev_ind.
  - rewrite decide_True, bool_decide_false by auto.
    unfold PPSStopper.installed. cbn. repeat split; lia.
  - destruct IH as (_ & Hinst & Hflag & Hreg).
    rewrite lifetime_snoc.
    destruct (subscribe_installed c.1.1 c.1.2 c.2
                (PPSStopper.lifetime in_state out_state mps_prefix calls))
      as (Hf & Hi & Hr).
    { rewrite Hinst, Hflag. destruct calls; done. }
    rewrite Hf, Hi, Hr, Hreg.
    assert (Hne : calls ++ [c] ≠ []) by (by destruct calls).
    rewrite decide_False, bool_decide_true by done.
    destruct c as [[? ?] ?]. done.
Qed.

(** ** The relative move of the attocube motor *)

Lemma self_not_module_name : "self" ∉ EccBase.module_names.
Proof. apply (bool_decide_unpack _). vm_compute. exact I. Qed.

(** C10.  Whatever the arguments, the state of the motor and the meaning of
    attribute access, addition and method call, a call of [moverel] raises
    and leaves the motor as it was: it returns no status and nothing reaches
    a signal.  When the arguments bind, it is the NameError of the name
    [self], which is no parameter, no name of the module and no builtin;
    the instance is then bound to [rel_position].  Otherwise it is the
    TypeError of the binding. *)
Theorem moverel_always_raises (motor : Type) (builtins : list string)
    (getattr : EccBase.pyobj → string → M motor EccBase.pyobj)
    (add : EccBase.pyobj → EccBase.pyobj → M motor EccBase.pyobj)
    (call : EccBase.pyobj → EccBase.pyobj → EccBase.pyobj → EccBase.pyobj →
            M motor nat)
    (a : arglist) (st : motor) :
  "self" ∉ builtins →
  (∃ e, EccBase.moverel motor builtins getattr add call a st = (Raise e, st) ∧
        (e = NameError "self" ∨ e = TypeError)) ∧
  (∀ instance rest,
     positional a = instance :: rest → keywords a !! "rel_position" = None →
     EccBase.bind_moverel a =
       Return {[ "rel_position" := EccBase.Val instance;
                 "args" := EccBase.Tuple rest;
                 "kwargs" := EccBase.Dict (keywords a) ]} ∧
     EccBase.moverel motor builtins getattr add call a st =
       (Raise (NameError "self"), st)).
Proof.
  intros Hb.
  assert (Hload : ∀ locals, EccBase.bind_moverel a = Return locals →
            EccBase.moverel_body motor builtins getattr add call locals st
            = (Raise (NameError "self"), st)).
  { intros locals Hbind.
    assert (Hself : locals !! "self" = None).
    { unfold EccBase.bind_moverel in Hbind.
      destruct (positional a), (keywords a !! "rel_position");
        try discriminate; injection Hbind as <-; vm_compute; reflexivity. }
    unfold EccBase.moverel_body, bind, EccBase.load_name at 1.
    rewrite Hself. rewrite bool_decide_false; [done|].
    rewrite elem_of_app. intros [Hm|?]; [|done].
    by apply self_not_module_name. }
  split.
  - unfold EccBase.moverel.
    destruct (EccBase.bind_moverel a) as [locals|e] eqn:Hbind.
    + exists (NameError "self"). split; [by apply Hload|by left].
    + exists e. split; [done|]. right.
      unfold EccBase.bind_moverel in Hbind.
      by destruct (positional a), (keywords a !! "rel_position");
        try discriminate; injection Hbind as <-.
  - intros instance rest Hpos Hkw.
    assert (Hbind : EccBase.bind_moverel a =
              Return {[ "rel_position" := EccBase.Val instance;
                        "args" := EccBase.Tuple rest;
                        "kwargs" := EccBase.Dict (keywords a) ]})
      by (unfold EccBase.bind_moverel; by rewrite Hpos, Hkw).
    split; [done|]. unfold EccBase.moverel. rewrite Hbind. by apply Hload.
Qed.

Lemma moverel_always_raises_witness :
  EccBase.moverel (gmap string Z) builtin_functions
    (λ _ _, ret (EccBase.Val VNone)) (λ _ _, ret (EccBase.Val VNone))
    (λ _ _ _ _, ret 0%nat) (Args [VObj 0; VInt 5] ∅) {[ "user_readback" := 3 ]}
  = (Raise (NameError "self"), {[ "user_readback" := 3 ]}).
Proof.
  refine (proj2 (proj2 (moverel_always_raises (gmap string Z)
            builtin_functions _ _ _ (Args [VObj 0; VInt 5] ∅) _ _)
          (VObj 0) [VInt 5] eq_refl eq_refl)).
  apply (bool_decide_unpack _). vm_compute. exact I.
Defined.

(** * Further properties of the sources *)

(** ** Opening a gate valve *)

Lemma bind_strict_no_rest (a : arglist) (w t : pyval)
    (rest : gmap string pyval) :
  bind_wait_timeout false a = Return (w, t, rest) →
  rest = ∅ ∧ bind_wait_timeout true a = Return (w, t, ∅).
Proof.
  unfold bind_wait_timeout. cbn [negb andb].
  case_bool_decide as Hself; [discriminate|].
  case_bool_decide as Hrest; cbn [negb]; [|discriminate].
  rewrite Hrest. intros H.
  assert (rest = ∅) as ->.
  { destruct (positional a) as [|? [|? [|? ?]]]; repeat case_match;
      congruence. }
  done.
Qed.

Lemma bind_rest_keys (var_kw : bool) (a : arglist) (w t : pyval)
    (rest : gmap string pyval) :
  bind_wait_timeout var_kw a = Return (w, t, rest) →
  rest !! "wait" = None ∧ rest !! "timeout" = None.
Proof.
  unfold bind_wait_timeout. intros H.
  assert (rest = delete "wait" (delete "timeout" (keywords a))) as ->.
  { case_bool_decide; [discriminate|].
    destruct (negb var_kw && _); [discriminate|].
    destruct (positional a) as [|? [|? [|? ?]]]; repeat case_match;
      congruence. }
  split; [apply lookup_delete_eq|].
  rewrite lookup_delete_ne by done. apply lookup_delete_eq.
Qed.

Lemma bind_self_keyword (var_kw : bool) (a : arglist) :
  is_Some (keywords a !! "self") → bind_wait_timeout var_kw a = Raise TypeError.
Proof. intros H. unfold bind_wait_timeout. by rewrite bool_decide_true. Qed.

Lemma rebind_keywords (w t : pyval) (kwargs : gmap string pyval) :
  kwargs !! "wait" = None → kwargs !! "timeout" = None →
  bind_wait_timeout false
    (Args [] (<["wait" := w]> (<["timeout" := t]> kwargs))) =
  if bool_decide (kwargs = ∅) then Return (w, t, ∅) else Raise TypeError.
Proof.
  intros Hw Ht. unfold bind_wait_timeout. cbn [keywords positional negb andb].
  assert (Hrest : delete "wait" (delete "timeout"
            (<["wait" := w]> (<["timeout" := t]> kwargs))) = kwargs).
  { apply map_eq. intros k.
    destruct (decide (k = "wait")) as [->|Hkw].
    - by rewrite lookup_delete_eq.
    - rewrite lookup_delete_ne by done.
      destruct (decide (k = "timeout")) as [->|Hkt].
      + by rewrite lookup_delete_eq.
      + rewrite lookup_delete_ne by done.
        by rewrite !lookup_insert_ne by done. }
  rewrite Hrest. rewrite !lookup_insert_ne by done.
  case_bool_decide as Hself.
  - rewrite bool_decide_false; [done|].
    intros ->. rewrite lookup_empty in Hself. by destruct Hself.
  - case_bool_decide as He; cbn [negb]; [|done].
    rewrite lookup_insert_eq, lookup_insert_ne by done.
    rewrite lookup_insert_eq. by rewrite He.
Qed.

(** X1.  When the interlock of a gate valve reads 0 and the arguments are
    ones [Stopper.open] accepts, [GateValve.open] reads the interlock once
    and is then [Stopper.open] on the same arguments: the move to OUT with
    the same [wait] and [timeout].  The read of the interlock is the only
    difference between the two. *)
Theorem gate_valve_open_permitted
    (mv : string → pyval → pyval → M device nat) (a : arglist) (st : device)
    (w t : pyval) (rest : gmap string pyval) :
  bind_wait_timeout false a = Return (w, t, rest) →
  readings st !! "interlock" = Some 0 →
  GateValve.call_open mv a st =
    Stopper.call_open mv a (record (Get "interlock") st) ∧
  GateValve.call_open mv a st = mv "OUT" w t (record (Get "interlock") st).
Proof.
  intros Hbind Hv.
  destruct (bind_strict_no_rest a w t rest Hbind) as [-> Hloose].
  assert (Hopen : GateValve.call_open mv a st =
                  mv "OUT" w t (record (Get "interlock") st)).
  { unfold GateValve.call_open. rewrite Hloose.
    unfold GateValve.open, GateValve.interlocked, bind, get, ret.
    rewrite Hv. cbn [truthy Z.eqb negb].
    unfold Stopper.call_open.
    rewrite rebind_keywords by apply lookup_empty.
    by rewrite bool_decide_true. }
  split; [|exact Hopen].
  rewrite Hopen. unfold Stopper.call_open. by rewrite Hbind.
Qed.

Lemma gate_valve_open_permitted_witness :
  GateValve.call_open move (Args [VBool true] {[ "timeout" := VInt 5 ]})
    (gate_valve 0) =
  move "OUT" (VBool true) (VInt 5) (record (Get "interlock") (gate_valve 0)).
Proof.
  refine (proj2 (gate_valve_open_permitted move
            (Args [VBool true] {[ "timeout" := VInt 5 ]}) (gate_valve 0)
            (VBool true) (VInt 5) ∅ _ _)).
  - vm_compute. reflexivity.
  - vm_compute. reflexivity.
Defined.

(** X2.  [GateValve.open] takes further keywords into [**kwargs] and hands
    them to [Stopper.open], which takes none.  A keyword named [self] does
    not get that far: the call fails with TypeError when the arguments are
    bound, with nothing read.  A call that binds with any other keyword
    besides [wait] and [timeout] never reaches the move, whatever the
    inherited [move] is: it reads the interlock and then raises,
    InterlockError when the interlock is tripped and TypeError when it is
    not, and nothing is written. *)
Theorem gate_valve_open_extra_keywords
    (mv : string → pyval → pyval → M device nat) (a : arglist) (st : device) :
  (is_Some (keywords a !! "self") →
   GateValve.call_open mv a st = (Raise TypeError, st)) ∧
  (∀ (w t : pyval) (kwargs : gmap string pyval) (v : Z),
     bind_wait_timeout true a = Return (w, t, kwargs) →
     kwargs ≠ ∅ →
     readings st !! "interlock" = Some v →
     keywords a !! "self" = None ∧
     GateValve.call_open mv a st =
       (Raise (if truthy v
               then InterlockError "Valve is currently forced closed"
               else TypeError),
        record (Get "interlock") st) ∧
     writes (log (GateValve.call_open mv a st).2) = writes (log st)).
Proof.
  split.
  { intros Hself. unfold GateValve.call_open.
    by rewrite (bind_self_keyword true a Hself). }
  intros w t kwargs v Hbind Hne Hv.
  destruct (bind_rest_keys true a w t kwargs Hbind) as [Hkw Hkt].
  assert (Hopen : GateValve.call_open mv a st =
    (Raise (if truthy v
            then InterlockError "Valve is currently forced closed"
            else TypeError),
     record (Get "interlock") st)).
  { unfold GateValve.call_open. rewrite Hbind.
    unfold GateValve.open, GateValve.interlocked, bind, get, ret, raise.
    rewrite Hv. destruct (truthy v); [done|].
    unfold Stopper.call_open.
    rewrite rebind_keywords by done.
    by rewrite bool_decide_false. }
  split.
  { destruct (keywords a !! "self") as [x|] eqn:Hself; [|done].
    rewrite (bind_self_keyword true a) in Hbind by (rewrite Hself; eauto).
    discriminate. }
  split; [exact Hopen|].
  rewrite Hopen. cbn. rewrite writes_app. cbn. by rewrite app_nil_r.
Qed.

Lemma gate_valve_open_extra_keywords_witness :
  GateValve.call_open move (Args [] {[ "self" := VObj 1 ]}) (gate_valve 1)
  = (Raise TypeError, gate_valve 1) ∧
  GateValve.call_open move (Args [] {[ "moved_cb" := VNone ]}) (gate_valve 0)
  = (Raise TypeError, record (Get "interlock") (gate_valve 0)).
Proof.
  split.
  - apply (proj1 (gate_valve_open_extra_keywords move
                    (Args [] {[ "self" := VObj 1 ]}) (gate_valve 1))).
    vm_compute. eauto.
  - refine (proj1 (proj2 (proj2 (gate_valve_open_extra_keywords move
              (Args [] {[ "moved_cb" := VNone ]}) (gate_valve 0))
              (VBool false) VNone {[ "moved_cb" := VNone ]} 0 _ _ _))).
    + vm_compute. reflexivity.
    + apply (bool_decide_unpack _). vm_compute. exact I.
    + vm_compute. reflexivity.
Defined.

(** X3.  The lightpath alias [remove] is guarded like [open]: on a gate
    valve whose interlock is tripped it raises InterlockError after the read
    of the interlock, without reaching the move.  [insert] is not guarded:
    it is the move to IN on the device as it is, with no read of the
    interlock before it. *)
Theorem remove_guarded_insert_not
    (mv : string → pyval → pyval → M device nat) (a : arglist) (st : device)
    (w t : pyval) (rest : gmap string pyval) (v : Z) :
  cls st = GateValveCls →
  bind_wait_timeout false a = Return (w, t, rest) →
  readings st !! "interlock" = Some v → v ≠ 0 →
  remove mv a st =
    (Raise (InterlockError "Valve is currently forced closed"),
     record (Get "interlock") st) ∧
  insert mv a st = mv "IN" w t st.
Proof.
  intros Hcls Hbind Hv Hnz.
  destruct (bind_strict_no_rest a w t rest Hbind) as [-> Hloose].
  split.
  - unfold remove, Stopper.remove, self_open. rewrite Hcls.
    unfold GateValve.call_open. rewrite Hloose.
    unfold GateValve.open, GateValve.interlocked, bind, get, ret, raise.
    by rewrite Hv, (truthy_nonzero v Hnz).
  - unfold insert, Stopper.insert, self_close, Stopper.call_close.
    by rewrite Hbind.
Qed.

Lemma remove_guarded_insert_not_witness :
  remove move no_arguments (gate_valve 1) =
    (Raise (InterlockError "Valve is currently forced closed"),
     record (Get "interlock") (gate_valve 1)) ∧
  insert move no_arguments (gate_valve 1) =
    move "IN" (VBool false) VNone (gate_valve 1).
Proof.
  apply (remove_guarded_insert_not move no_arguments (gate_valve 1)
           (VBool false) VNone ∅ 1).
  - reflexivity.
  - vm_compute. reflexivity.
  - vm_compute. reflexivity.
  - lia.
Defined.

(** X4.  A call with more than two positional arguments is a TypeError for
    [open], [close], [insert] and [remove] of both classes.  Nothing is read
    and nothing is written: on a gate valve the interlock is not even
    consulted, since the arguments are bound before the body runs. *)
Theorem too_many_arguments
    (mv : string → pyval → pyval → M device nat) (a : arglist) (st : device) :
  (2 < length (positional a))%nat →
  Stopper.call_open mv a st = (Raise TypeError, st) ∧
  Stopper.call_close mv a st = (Raise TypeError, st) ∧
  GateValve.call_open mv a st = (Raise TypeError, st) ∧
  insert mv a st = (Raise TypeError, st) ∧
  remove mv a st = (Raise TypeError, st).
Proof.
  intros Hlen.
  assert (Hb : ∀ b, bind_wait_timeout b a = Raise TypeError).
  { intros b. unfold bind_wait_timeout.
    case_bool_decide; [done|].
    destruct (negb b && _); [done|].
    destruct (positional a) as [|? [|? [|? ?]]]; cbn in Hlen; try lia.
    done. }
  unfold insert, remove, Stopper.insert, Stopper.remove, self_close,
    self_open, Stopper.call_open, Stopper.call_close, GateValve.call_open.
  rewrite !Hb. by destruct (cls st).
Qed.

Lemma too_many_arguments_witness :
  remove move (Args [VBool true; VInt 5; VNone] ∅) (gate_valve 1) =
    (Raise TypeError, gate_valve 1).
Proof.
  refine (proj2 (proj2 (proj2 (proj2 (too_many_arguments move
            (Args [VBool true; VInt 5; VNone] ∅) (gate_valve 1) _))))).
  cbn. lia.
Defined.

(** ** Runs of the dispatcher *)

(** X5.  Any run of the dispatcher only ever appends writes of 0 or 1 to the
    command signal: one write per IN or OUT in the run, in the order of the
    run, and none for any other state.  It reads nothing and leaves the
    readings, the move in flight and the result slots as they were. *)
Theorem dispatch_all_writes (states : list string) (st : device) :
  dispatch_all states st =
    (Return tt,
     Device (cls st) (readings st)
       (log st ++ issue (states ≫= λ s, default [] (Stopper.commands_for s)))
       (pending st) (results st) (next_handle st)) ∧
  Forall (λ e, e = Put "command" 0 ∨ e = Put "command" 1)
    (issue (states ≫= λ s, default [] (Stopper.commands_for s))) ∧
  (length (issue (states ≫= λ s, default [] (Stopper.commands_for s)))
   ≤ length states)%nat.
Proof.
  split; [|split].
  - revert st. induction states as [|s states IH]; intros st.
    + cbn. rewrite app_nil_r. by destruct st.
    + cbn [dispatch_all foldr]. unfold bind at 1.
      rewrite do_move_commands.
      change (foldr _ _ states) with (dispatch_all states).
      rewrite IH. cbn [cls readings log pending results next_handle].
      rewrite <- app_assoc. do 3 f_equal.
      cbn. unfold issue. symmetry. apply fmap_app.
  - induction states as [|s states IH]; [constructor|].
    cbn. unfold issue in *. rewrite fmap_app. apply Forall_app. split; [|done].
    unfold Stopper.commands_for. repeat case_bool_decide; cbn;
      repeat first [apply Forall_nil_2
                   | apply Forall_cons_2; [first [by left | by right]|]].
  - induction states as [|s states IH]; [done|].
    cbn. unfold issue in *. rewrite fmap_app, length_app.
    assert (length ((λ w : string * Z, Put w.1 w.2) <$>
              default [] (Stopper.commands_for s)) ≤ 1)%nat.
    { unfold Stopper.commands_for. repeat case_bool_decide; cbn; lia. }
    cbn in IH |- *. lia.
Qed.

(** ** Position of a stopper *)

(** X6.  Whatever [position] reads, a stopper is never reported both
    inserted and removed on the same device state, and it is reported
    neither when the position is any label other than IN and OUT, such as
    the unknown one. *)
Theorem stopper_inserted_removed_exclusive (position : M device string)
    (st st' : device) (p : string) :
  position st = (Return p, st') →
  Stopper.inserted position st = (Return (bool_decide (p = "IN")), st') ∧
  Stopper.removed position st = (Return (bool_decide (p = "OUT")), st') ∧
  ¬ ((Stopper.inserted position st).1 = Return true ∧
     (Stopper.removed position st).1 = Return true) ∧
  (p ≠ "IN" → p ≠ "OUT" →
   (Stopper.inserted position st).1 = Return false ∧
   (Stopper.removed position st).1 = Return false).
Proof.
  intros Hp. unfold Stopper.inserted, Stopper.removed, bind, ret.
  rewrite Hp. cbn. split; [done|]. split; [done|]. split.
  - intros [[= Hi%bool_decide_eq_true] [= Ho%bool_decide_eq_true]].
    congruence.
  - intros Hi Ho. by rewrite !bool_decide_false.
Qed.

Lemma stopper_inserted_removed_exclusive_witness :
  (Stopper.inserted (ret "UNKNOWN") stopper).1 = Return false ∧
  (Stopper.removed (ret "UNKNOWN") stopper).1 = Return false.
Proof.
  refine (proj2 (proj2 (proj2 (stopper_inserted_removed_exclusive
            (ret "UNKNOWN") stopper stopper "UNKNOWN" eq_refl))) _ _);
    discriminate.
Defined.

(** ** The PPS stopper *)

Lemma subscribe_keeps_states (cb : PPSStopper.callback)
    (event_type : option string) (run : bool) (self : PPSStopper.t) :
  PPSStopper.in_state (PPSStopper.subscribe cb event_type run self) =
    PPSStopper.in_state self ∧
  PPSStopper.out_state (PPSStopper.subscribe cb event_type run self) =
    PPSStopper.out_state self ∧
  PPSStopper._mps_prefix (PPSStopper.subscribe cb event_type run self) =
    PPSStopper._mps_prefix self.
Proof.
  unfold PPSStopper.subscribe.
  by destruct (PPSStopper._has_subscribed self).
Qed.

Lemma lifetime_states (i o : string) (m : option string)
    (calls : list (PPSStopper.callback * option string * bool)) :
  PPSStopper.in_state (PPSStopper.lifetime i o m calls) = i ∧
  PPSStopper.out_state (PPSStopper.lifetime i o m calls) = o ∧
  PPSStopper._mps_prefix (PPSStopper.lifetime i o m calls) = m.
Proof.
  induction calls as [|c calls IH] using rev_ind; [done|].
  rewrite lifetime_snoc.
  destruct (subscribe_keeps_states c.1.1 c.1.2 c.2
              (PPSStopper.lifetime i o m calls)) as (-> & -> & ->).
  exact IH.
Qed.

(** X7.  The state names and the MPS prefix given at construction stay as
    they are through any number of calls of [subscribe].  So [inserted] and
    [removed] always compare the summary with the names given at
    construction; when the two names differ the stopper is never reported
    both inserted and removed, and a summary that is neither name is
    reported as neither. *)
Theorem pps_stopper_states_kept (i o : string) (m : option string)
    (calls : list (PPSStopper.callback * option string * bool))
    (summary : string) :
  let self := PPSStopper.lifetime i o m calls in
  PPSStopper.in_state self = i ∧
  PPSStopper.out_state self = o ∧
  PPSStopper._mps_prefix self = m ∧
  PPSStopper.inserted summary self = bool_decide (summary = i) ∧
  PPSStopper.removed summary self = bool_decide (summary = o) ∧
  (i ≠ o → ¬ (PPSStopper.inserted summary self = true ∧
              PPSStopper.removed summary self = true)) ∧
  (summary ≠ i → summary ≠ o →
   PPSStopper.inserted summary self = false ∧
   PPSStopper.removed summary self = false).
Proof.
  cbn zeta. unfold PPSStopper.inserted, PPSStopper.removed.
  destruct (lifetime_states i o m calls) as (-> & -> & ->).
  repeat split; try done.
  - intros Hne [Hi%bool_decide_eq_true Ho%bool_decide_eq_true]. congruence.
  - by apply bool_decide_false.
  - by apply bool_decide_false.
Qed.

Lemma pps_stopper_states_kept_witness :
  ¬ (PPSStopper.inserted "IN"
       (PPSStopper.lifetime "IN" "OUT" None
          [(PPSStopper.Caller 0, None, true)]) = true ∧
     PPSStopper.removed "IN"
       (PPSStopper.lifetime "IN" "OUT" None
          [(PPSStopper.Caller 0, None, true)]) = true) ∧
  (PPSStopper.inserted "INCONSISTENT"
     (PPSStopper.lifetime "IN" "OUT" None
        [(PPSStopper.Caller 0, None, true)]) = false ∧
   PPSStopper.removed "INCONSISTENT"
     (PPSStopper.lifetime "IN" "OUT" None
        [(PPSStopper.Caller 0, None, true)]) = false).
Proof.
  split.
  - refine (proj1 (proj2 (proj2 (proj2 (proj2 (proj2
              (pps_stopper_states_kept "IN" "OUT" None
                 [(PPSStopper.Caller 0, None, true)] "IN")))))) _).
    discriminate.
  - refine (proj2 (proj2 (proj2 (proj2 (proj2 (proj2
              (pps_stopper_states_kept "IN" "OUT" None
                 [(PPSStopper.Caller 0, None, true)] "INCONSISTENT"))))))
              _ _); discriminate.
Defined.

(** X8.  Whatever keywords the summary signal passes, [_on_state_change]
    calls [_run_subs] and never fails on a keyword given twice: the call has
    [sub_type] set to [SUB_STATE] and [obj] set to the stopper, in place of
    what the signal gave for them, and every other keyword as the signal
    gave it.  The two [pop]s are what this rests on: the same call on
    keywords that still hold [sub_type] or [obj] is a TypeError. *)
Theorem on_state_change_forwards (this : pyval)
    (kwargs : gmap string pyval) :
  (∃ kws, PPSStopper.run_on_state_change this kwargs = Return kws ∧
          kws !! "sub_type" = Some (VStr PPSStopper.SUB_STATE) ∧
          kws !! "obj" = Some this ∧
          ∀ k, k ≠ "sub_type" → k ≠ "obj" → kws !! k = kwargs !! k) ∧
  (is_Some (kwargs !! "sub_type") ∨ is_Some (kwargs !! "obj") →
   call_keywords [("sub_type", VStr PPSStopper.SUB_STATE); ("obj", this)]
     kwargs = Raise TypeError).
Proof.
  split.
  - unfold PPSStopper.run_on_state_change, call_keywords.
    cbn [forallb fst snd foldr].
    rewrite lookup_delete_ne, !lookup_delete_eq by done.
    rewrite !bool_decide_true by done. cbn [andb].
    eexists. split; [reflexivity|]. split; [apply lookup_insert_eq|].
    split.
    + rewrite lookup_insert_ne by done. apply lookup_insert_eq.
    + intros k Hs Ho.
      by rewrite !lookup_insert_ne, !lookup_delete_ne by done.
  - intros Hsome. unfold call_keywords. cbn [forallb fst snd].
    destruct Hsome as [[x Hx]|[x Hx]]; rewrite Hx.
    + by rewrite bool_decide_false.
    + rewrite (bool_decide_false (Some x = None)) by done.
      by rewrite andb_false_r, ?andb_false_l.
Qed.

Lemma on_state_change_forwards_witness :
  call_keywords
    [("sub_type", VStr PPSStopper.SUB_STATE); ("obj", VObj 1)]
    {[ "sub_type" := VStr "value"; "value" := VInt 1 ]} = Raise TypeError.
Proof.
  apply (proj2 (on_state_change_forwards (VObj 1)
                  {[ "sub_type" := VStr "value"; "value" := VInt 1 ]})).
  left. vm_compute. eauto.
Defined.

Lemma lifetime_summary (i o : string) (m : option string)
    (calls : list (PPSStopper.callback * option string * bool)) :
  PPSStopper.summary_subscriptions (PPSStopper.lifetime i o m calls) =
    (if decide (calls = []) then []
     else [(PPSStopper._on_state_change, false)]) ∧
  PPSStopper._has_subscribed (PPSStopper.lifetime i o m calls) =
    bool_decide (calls ≠ []).
Proof.
  induction calls as [|c calls [IHs IHf]] using rev_ind.
  - split; [done|]. by rewrite bool_decide_false by auto.
  - rewrite lifetime_snoc.
    assert (Hne : calls ++ [c] ≠ []) by (by destruct calls).
    rewrite decide_False, bool_decide_true by done.
    unfold PPSStopper.subscribe. rewrite IHf, IHs.
    destruct calls as [|c' calls]; [done|].
    rewrite bool_decide_true by done. by rewrite decide_False by done.
Qed.

(** X9.  The internal callback is subscribed to the summary signal with
    [run=False], so subscribing it calls nothing by itself.  Once
    [subscribe] has been called, however often, one update of the summary
    signal leads to exactly one call of [_run_subs], not one per call of
    [subscribe]; before the first call of [subscribe] an update leads to
    none. *)
Theorem summary_update_runs_subs_once (i o : string) (m : option string)
    (calls : list (PPSStopper.callback * option string * bool))
    (this : pyval) (kwargs : gmap string pyval) :
  let self := PPSStopper.lifetime i o m calls in
  Forall (λ s, s = (PPSStopper._on_state_change, false))
    (PPSStopper.summary_subscriptions self) ∧
  PPSStopper.summary_changed this kwargs self =
    (if decide (calls = []) then []
     else [PPSStopper.run_on_state_change this kwargs]).
Proof.
  cbn zeta. unfold PPSStopper.summary_changed.
  destruct (lifetime_summary i o m calls) as [-> _].
  destruct (decide (calls = [])); [done|].
  split; [by repeat constructor|done].
Qed.

(** ** The firmware date of the attocube controller *)

Lemma split_on_without (sep : ascii) (a : string) :
  occurs sep a = false → split_on sep a = [a].
Proof.
  induction a as [|c a IH]; [done|].
  simpl. intros [Hc Ha]%orb_false_elim.
  by rewrite Hc, (IH Ha).
Qed.

Lemma split_on_append (sep : ascii) (a rest : string) :
  occurs sep a = false →
  split_on sep (a +:+ String sep rest) = a :: split_on sep rest.
Proof.
  induction a as [|c a IH].
  - intros _. simpl. by rewrite Ascii.eqb_refl.
  - simpl. intros [Hc Ha]%orb_false_elim.
    by rewrite Hc, (IH Ha).
Qed.

Lemma append_empty_r (s : string) : s +:+ "" = s.
Proof.
  induction s as [|c s IH]; [done|].
  change (String c (s +:+ "") = String c s). by rewrite IH.
Qed.

(** X10.  The firmware text is the day, the month and the year in this
    order, with a slash between them.  When none of the three texts holds a
    slash, as for numbers, splitting the firmware text at the slashes gives
    the three back. *)
Theorem firmware_round_trip (day month year : string) :
  occurs "/" day = false → occurs "/" month = false →
  occurs "/" year = false →
  EccController.firmware day month year =
    Some (day +:+ "/" +:+ month +:+ "/" +:+ year) ∧
  split_on "/" (day +:+ "/" +:+ month +:+ "/" +:+ year) = [day; month; year].
Proof.
  intros Hd Hm Hy. split.
  { rewrite <- (append_empty_r year) at 2. vm_compute. reflexivity. }
  change (day +:+ "/" +:+ month +:+ "/" +:+ year)
    with (day +:+ String "/" (month +:+ String "/" year)).
  rewrite (split_on_append _ _ _ Hd), (split_on_append _ _ _ Hm).
  by rewrite (split_on_without _ _ Hy).
Qed.

Lemma firmware_round_trip_witness :
  EccController.firmware "12" "3" "2015" = Some "12/3/2015" ∧
  split_on "/" "12/3/2015" = ["12"; "3"; "2015"].
Proof.
  apply (firmware_round_trip "12" "3" "2015"); reflexivity.
Defined.

(** ** The PV names of an EVR channel *)

Lemma append_inv_head (p a b : string) : p +:+ a = p +:+ b → a = b.
Proof. induction p as [|c p IH]; cbn; [done|]. intros [= H]. auto. Qed.

Lemma append_char_inj (s1 s2 : string) (a : ascii) :
  s1 +:+ String a "" = s2 +:+ String a "" → s1 = s2.
Proof.
  revert s2. induction s1 as [|c s1 IH]; intros [|d s2]; cbn; [done|..].
  - intros [= _ H]. by destruct s2.
  - intros [= _ H]. by destruct s1.
  - intros [= -> H]. f_equal. auto.
Qed.

Lemma rpartition_append (sep : ascii) (c x : string) :
  rpartition sep x = None →
  rpartition sep (c +:+ String sep x) = Some (c, x).
Proof.
  intros Hx. induction c as [|a c IH]; simpl.
  - by rewrite Hx, Ascii.eqb_refl.
  - by rewrite IH.
Qed.

Lemma colon_tail_inj (c1 c2 x y : string) :
  rpartition ":" x = None → rpartition ":" y = None →
  c1 +:+ String ":" x = c2 +:+ String ":" y → c1 = c2 ∧ x = y.
Proof.
  intros Hx Hy H. apply (f_equal (rpartition ":")) in H.
  rewrite !rpartition_append in H by done. by injection H.
Qed.

Lemma evr_shared_pvs (p c : string) :
  EvrChannel.pvs_of (λ k, negb (EvrChannel.is_formatted k))
    (EvrChannel.__init__ p c) =
  Some (String.append p <$>
          [":LINK"; ":FIDUCIALRATE"; ":PATTERNSTATE"; ":STATUS"; ":Fiducial";
           ":TREF"]).
Proof. reflexivity. Qed.

Lemma evr_channel_pvs (p c : string) :
  EvrChannel.pvs_of EvrChannel.is_formatted (EvrChannel.__init__ p c) =
  Some (String.append p <$>
          [":TRIG" +:+ c +:+ ":EC_RBV"; ":TRIG" +:+ c +:+ ":TEC";
           ":TRIG" +:+ c +:+ ":TCTL.DESC"; ":TRIG" +:+ c +:+ ":EC_NAME";
           ":TRIG" +:+ c +:+ ":TCTL"; ":CTRL.IP" +:+ c +:+ "E";
           ":TRIG" +:+ c +:+ ":TPOL"; ":TRIG" +:+ c +:+ ":BW_TWIDCALC";
           ":TRIG" +:+ c +:+ ":TWID"; ":TRIG" +:+ c +:+ ":BW_TDES";
           ":TRIG" +:+ c +:+ ":TDES"; ":TRIG" +:+ c +:+ ":BW_TDLY";
           ":CTRL.DG" +:+ c +:+ "D"; ":TRIG" +:+ c +:+ ":CNT";
           ":TRIG" +:+ c +:+ ":RATE"]).
Proof. reflexivity. Qed.

Lemma evr_all_pvs (p c : string) :
  EvrChannel.all_pvs (EvrChannel.__init__ p c) =
  Some (String.append p <$>
          [":LINK"; ":FIDUCIALRATE"; ":PATTERNSTATE"; ":STATUS"; ":Fiducial";
           ":TREF";
           ":TRIG" +:+ c +:+ ":EC_RBV"; ":TRIG" +:+ c +:+ ":TEC";
           ":TRIG" +:+ c +:+ ":TCTL.DESC"; ":TRIG" +:+ c +:+ ":EC_NAME";
           ":TRIG" +:+ c +:+ ":TCTL"; ":CTRL.IP" +:+ c +:+ "E";
           ":TRIG" +:+ c +:+ ":TPOL"; ":TRIG" +:+ c +:+ ":BW_TWIDCALC";
           ":TRIG" +:+ c +:+ ":TWID"; ":TRIG" +:+ c +:+ ":BW_TDES";
           ":TRIG" +:+ c +:+ ":TDES"; ":TRIG" +:+ c +:+ ":BW_TDLY";
           ":CTRL.DG" +:+ c +:+ "D"; ":TRIG" +:+ c +:+ ":CNT";
           ":TRIG" +:+ c +:+ ":RATE"]).
Proof. reflexivity. Qed.

Ltac distinct_names :=
  let H := fresh in
  intros H;
  cbv beta iota delta [String.append] in H; fold String.append in H;
  repeat match type of H with
    | String ?a _ = String ?a _ => injection H as H
    end;
  first
    [ discriminate H
    | apply append_inv_head in H; discriminate H ].

(** X11.  For every prefix and every channel the class resolves all its
    templates, to 21 PV names: the 17 read PVs and the 4 separate write
    PVs.  The names all start with the prefix of the device, and no two of
    them are the same, so no two signals of a channel address one PV. *)
Theorem evr_pvs_distinct (prefix channel : string) :
  ∃ names,
    EvrChannel.all_pvs (EvrChannel.__init__ prefix channel) = Some names ∧
    length names = 21%nat ∧
    Forall (λ n, ∃ suffix, n = prefix +:+ suffix) names ∧
    NoDup names.
Proof.
  eexists. split; [apply evr_all_pvs|]. split; [reflexivity|]. split.
  - apply Forall_fmap, Forall_forall. intros s _. by exists s.
  - apply (NoDup_fmap_2 (String.append prefix)).
    repeat (apply NoDup_cons; split;
              [rewrite ?not_elem_of_cons; repeat split;
                 first [apply not_elem_of_nil | distinct_names]|]).
    apply NoDup_nil_2.
Qed.

Lemma evr_channel_suffix_shape (c s : string) :
  s ∈ [":TRIG" +:+ c +:+ ":EC_RBV"; ":TRIG" +:+ c +:+ ":TEC";
       ":TRIG" +:+ c +:+ ":TCTL.DESC"; ":TRIG" +:+ c +:+ ":EC_NAME";
       ":TRIG" +:+ c +:+ ":TCTL"; ":CTRL.IP" +:+ c +:+ "E";
       ":TRIG" +:+ c +:+ ":TPOL"; ":TRIG" +:+ c +:+ ":BW_TWIDCALC";
       ":TRIG" +:+ c +:+ ":TWID"; ":TRIG" +:+ c +:+ ":BW_TDES";
       ":TRIG" +:+ c +:+ ":TDES"; ":TRIG" +:+ c +:+ ":BW_TDLY";
       ":CTRL.DG" +:+ c +:+ "D"; ":TRIG" +:+ c +:+ ":CNT";
       ":TRIG" +:+ c +:+ ":RATE"] →
  (∃ x, rpartition ":" x = None ∧ s = ":TRIG" +:+ c +:+ String ":" x) ∨
  s = ":CTRL.IP" +:+ c +:+ "E" ∨ s = ":CTRL.DG" +:+ c +:+ "D".
Proof.
  intros H.
  repeat (apply elem_of_cons in H as [->|H];
          [first [by right; left | by right; right
                 | left; eexists; split; [|reflexivity]; reflexivity]|]).
  by apply elem_of_nil in H.
Qed.

(** X12.  Two channels of one EVR share the six PVs that are declared
    relative to the prefix (link, fiducial rate, pattern state, status,
    fiducial, reference time): these do not depend on the channel.  The 15
    PVs declared through a template do: for two different channels no
    template PV of the one is a template PV of the other, whatever the
    prefix and the channels are. *)
Theorem evr_channels_disjoint (prefix c1 c2 : string) :
  c1 ≠ c2 →
  ∃ shared l1 l2,
    EvrChannel.pvs_of (λ k, negb (EvrChannel.is_formatted k))
      (EvrChannel.__init__ prefix c1) = Some shared ∧
    EvrChannel.pvs_of (λ k, negb (EvrChannel.is_formatted k))
      (EvrChannel.__init__ prefix c2) = Some shared ∧
    length shared = 6%nat ∧
    EvrChannel.pvs_of EvrChannel.is_formatted
      (EvrChannel.__init__ prefix c1) = Some l1 ∧
    EvrChannel.pvs_of EvrChannel.is_formatted
      (EvrChannel.__init__ prefix c2) = Some l2 ∧
    length l1 = 15%nat ∧ length l2 = 15%nat ∧
    ∀ n, n ∈ l1 → n ∉ l2.
Proof.
  intros Hne. eexists _, _, _.
  split; [apply evr_shared_pvs|]. split; [apply evr_shared_pvs|].
  split; [reflexivity|].
  split; [apply evr_channel_pvs|]. split; [apply evr_channel_pvs|].
  split; [reflexivity|]. split; [reflexivity|].
  intros n [s1 [-> H1]]%list_elem_of_fmap [s2 [Heq H2]]%list_elem_of_fmap.
  apply append_inv_head in Heq. subst s2.
  apply evr_channel_suffix_shape in H1, H2.
  destruct H1 as [(x & Hx & ->)|[->| ->]],
           H2 as [(y & Hy & H2)|[H2|H2]];
    cbv beta iota delta [String.append] in H2; fold String.append in H2;
    repeat match type of H2 with
      | String ?a _ = String ?a _ => injection H2 as H2
      end;
    try discriminate H2.
  - by apply colon_tail_inj in H2 as [? _].
  - by apply append_char_inj in H2.
  - by apply append_char_inj in H2.
Qed.

Lemma evr_channels_disjoint_witness :
  ∃ shared l1 l2,
    EvrChannel.pvs_of (λ k, negb (EvrChannel.is_formatted k))
      (EvrChannel.__init__ "XPP:EVR" "1") = Some shared ∧
    EvrChannel.pvs_of EvrChannel.is_formatted
      (EvrChannel.__init__ "XPP:EVR" "1") = Some l1 ∧
    EvrChannel.pvs_of EvrChannel.is_formatted
      (EvrChannel.__init__ "XPP:EVR" "10") = Some l2 ∧
    ∀ n, n ∈ l1 → n ∉ l2.
Proof.
  destruct (evr_channels_disjoint "XPP:EVR" "1" "10")
    as (shared & l1 & l2 & Hs & _ & _ & H1 & H2 & _ & _ & Hd).
  - discriminate.
  - exists shared, l1, l2. by repeat split.
Defined.
